(** * rotate-skiplist.h: the thread-state registry of the rotate skip list

    A shallow embedding of [rotate_skiplist::ThreadState] and of the
    [CACHE_ALIGNED_ALLOC] macro, with the properties of the registry that
    the design document states about them.

    Addresses are integers ([nullptr] is 0), [unsigned long] and [size_t]
    arithmetic is 64-bit with its wrap-around written out, the objects of
    class [ThreadState] live in a finite map from addresses, and the value
    each thread has stored under [thread_state_key] is a finite map from
    thread identifiers. *)

From Stdlib Require Import ZArith Lia String.
From stdpp Require Import base gmap list.

Local Open Scope Z_scope.

(** ** Machine arithmetic and the allocation macro *)

Module Alloc.

(** [#define CACHE_LINE_SIZE 64] *)
Definition CACHE_LINE_SIZE : Z := 64.

(** Conversion to [unsigned long] / [size_t] (LP64). *)
Definition to_ulong (x : Z) : Z := x mod 2 ^ 64.

(** The argument the macro hands to [malloc]: [(_s)+CACHE_LINE_SIZE*2],
    computed in [size_t]. *)
Definition malloc_request (s : Z) : Z :=
  to_ulong (s + CACHE_LINE_SIZE * 2).

(** The mask [~(CACHE_LINE_SIZE-1)] is an [int]; the bitwise and converts
    it to [unsigned long]. *)
Definition align_mask : Z := to_ulong (Z.lnot (CACHE_LINE_SIZE - 1)).

(** The address computed from the pointer [m] that [malloc] returned:
    [((unsigned long)m + CACHE_LINE_SIZE - 1) & ~(CACHE_LINE_SIZE-1)]. *)
Definition align_up (m : Z) : Z :=
  Z.land (to_ulong (to_ulong (to_ulong m + CACHE_LINE_SIZE) - 1)) align_mask.

(** [CACHE_ALIGNED_ALLOC(_s)], with the allocator as an oracle from the
    requested size to the returned address (0 when it fails). *)
Definition CACHE_ALIGNED_ALLOC (malloc : Z -> Z) (s : Z) : Z :=
  align_up (malloc (malloc_request s)).

End Alloc.

(** ** The thread-state objects and the static data of the class *)

Module Registry.

Definition nullptr : Z := 0.

(** The non-static members of [class ThreadState]. *)
Record ThreadState : Type := mkThreadState {
  id : Z;          (* unsigned int id *)
  owned : bool;    (* std::atomic_flag owned *)
  next_p : Z;      (* ThreadState *next_p *)
  gc_p : Z         (* GCState *gc_p *)
}.

Definition set_owned (b : bool) (s : ThreadState) : ThreadState :=
  mkThreadState (id s) b (next_p s) (gc_p s).

(** The memory holding [ThreadState] objects, the static members of the
    class, and the values the threads have stored under
    [thread_state_key] (no entry: the initial [NULL]). *)
Record World : Type := mkWorld {
  objects : gmap Z ThreadState;
  next_id : Z;                   (* static std::atomic<unsigned int> *)
  thread_state_head_p : Z;       (* static ThreadState * *)
  inited : bool;                 (* static bool *)
  thread_state_key : Z;          (* static pthread_key_t *)
  specific : gmap nat Z
}.

Definition with_objects (m : gmap Z ThreadState) (w : World) : World :=
  mkWorld m (next_id w) (thread_state_head_p w) (inited w)
          (thread_state_key w) (specific w).

Definition with_specific (m : gmap nat Z) (w : World) : World :=
  mkWorld (objects w) (next_id w) (thread_state_head_p w) (inited w)
          (thread_state_key w) m.

(** How a call ends. *)
Inductive result (A : Type) : Type :=
| Returned (a : A) (w : World)      (* a return statement was reached *)
| FellOffEnd (local : Z) (w : World)
    (* the closing brace of a value-returning function was reached with no
       return statement; [local] is the last value of its local pointer *)
| AssertFailed                      (* assert() aborted the process *)
| Exited (status : Z) (report : string)
    (* perror(report) followed by exit(status) *)
| Spinning (w : World)              (* the loop was still running when the
                                       fuel ran out *)
| Fault.                            (* an address holding no ThreadState
                                       object was dereferenced *)

Arguments Returned {A} a w.
Arguments FellOffEnd {A} local w.
Arguments AssertFailed {A}.
Arguments Exited {A} status report.
Arguments Spinning {A} w.
Arguments Fault {A}.

(** The way a call ends, with the value it returned left out. *)
Definition forget {A : Type} (r : result A) : result unit :=
  match r with
  | Returned _ w => Returned tt w
  | FellOffEnd local w => FellOffEnd local w
  | AssertFailed => AssertFailed
  | Exited status report => Exited status report
  | Spinning w => Spinning w
  | Fault => Fault
  end.

(** *** pthread thread-specific data *)

Definition pthread_getspecific (t : nat) (w : World) : Z :=
  default nullptr (specific w !! t).

Definition pthread_setspecific (t : nat) (p : Z) (w : World) : World :=
  with_specific (<[t := p]> (specific w)) w.

(** *** std::atomic_flag *)

(** [p->owned.test_and_set()]: sets the flag and yields its previous
    value. *)
Definition test_and_set (p : Z) (w : World) : option (bool * World) :=
  match objects w !! p with
  | None => None
  | Some s => Some (owned s, with_objects (<[p := set_owned true s]> (objects w)) w)
  end.

(** [p->owned.clear()] *)
Definition clear (p : Z) (w : World) : option World :=
  match objects w !! p with
  | None => None
  | Some s => Some (with_objects (<[p := set_owned false s]> (objects w)) w)
  end.

(** *** Member functions *)

(** [ThreadState::ClearOwnedFlag(void *data)] *)
Definition ClearOwnedFlag (data : Z) (w : World) : option World :=
  let thread_state_p := data in
  clear thread_state_p w.

(** [ThreadState::Init()]; [key_create] is what [pthread_key_create]
    answers: its return code and the key it stores on success. A key
    that has just been created has the value [NULL] in every thread, so
    under the new [thread_state_key] no thread has a binding. *)
Definition Init (key_create : Z * Z) (w : World) : result unit :=
  if inited w then AssertFailed
  else
    let w1 := mkWorld (objects w) 0 nullptr (inited w)
                      (thread_state_key w) (specific w) in
    if decide (fst key_create = 0)
    then Returned tt (mkWorld (objects w1) (next_id w1)
                              (thread_state_head_p w1) true
                              (snd key_create) ∅)
    else Exited 1 "ThreadState::Init::pthread_key_create()".

(** [ThreadState::EnterCritical()]: the body is empty. *)
Definition EnterCritical (this : Z) (w : World) : World := w.

(** The body of the loop of [GetCurrentThreadState] (lines 159-165) run by
    thread [t] at the object [p]: [Some (true, _)] when the function
    returns [p] from inside the loop, [Some (false, _)] when the body
    ends and the loop condition is tested again. *)
Definition claim_body (t : nat) (p : Z) (w : World) : option (bool * World) :=
  match test_and_set p w with
  | None => None
  | Some (was_set, w') =>
      let ownership_acquired := negb was_set in
      if ownership_acquired
      then Some (true, pthread_setspecific t p w')
      else Some (false, w')
  end.

Section GetCurrentThreadState.

(** The allocator and [sizeof(ThreadState)]. *)
Variable malloc : Z -> Z.
Variable sizeof_ThreadState : Z.

(** The loop [while(thread_state_p != nullptr) { ... }] and what follows
    it. The body never assigns [thread_state_p], so the next iteration
    runs at the same object. The second component lists the objects on
    which [test_and_set] was executed, in order. *)
Fixpoint claim_loop (fuel : nat) (t : nat) (thread_state_p : Z)
    (w : World) (tas : list Z) : result Z * list Z :=
  if decide (thread_state_p = nullptr)
  then
    (FellOffEnd (Alloc.CACHE_ALIGNED_ALLOC malloc sizeof_ThreadState) w, tas)
  else
    match fuel with
    | O => (Spinning w, tas)
    | S fuel' =>
        match claim_body t thread_state_p w with
        | None => (Fault, tas)
        | Some (true, w') => (Returned thread_state_p w', tas ++ [thread_state_p])
        | Some (false, w') =>
            claim_loop fuel' t thread_state_p w' (tas ++ [thread_state_p])
        end
    end.

(** [ThreadState::GetCurrentThreadState()] called by thread [t]. *)
Definition GetCurrentThreadState (fuel : nat) (t : nat) (w : World)
    : result Z * list Z :=
  let thread_state_p := pthread_getspecific t w in
  if decide (thread_state_p <> nullptr)
  then (Returned thread_state_p w, [])
  else
    let thread_state_p := thread_state_head_p w in
    claim_loop fuel t thread_state_p w [].

End GetCurrentThreadState.

(** *** The list of objects and interleavings of atomic steps *)

(** The addresses met from [p] along [next_p], at most [fuel] of them. *)
Fixpoint slot_list (fuel : nat) (p : Z) (m : gmap Z ThreadState) : list Z :=
  match fuel with
  | O => []
  | S fuel' =>
      if decide (p = nullptr) then []
      else match m !! p with
           | None => []
           | Some s => p :: slot_list fuel' (next_p s) m
           end
  end.

(** The steps of different threads on the shared flags, in the order in
    which they take effect: thread [t] runs the loop body at [p], or
    [ClearOwnedFlag] is run on [p]. *)
Inductive action : Type :=
| Claim (t : nat) (p : Z)
| Release (p : Z).

Definition released (p : Z) (a : action) : bool :=
  match a with
  | Release q => bool_decide (q = p)
  | Claim _ _ => false
  end.

Definition do_action (a : action) (w : World) : option World :=
  match a with
  | Claim t p => snd <$> claim_body t p w
  | Release p => ClearOwnedFlag p w
  end.

Fixpoint run (l : list action) (w : World) : option World :=
  match l with
  | [] => Some w
  | a :: l' =>
      match do_action a w with
      | None => None
      | Some w' => run l' w'
      end
  end.

(** The flag of [p] is set in [w]. *)
Definition is_owned (p : Z) (w : World) : Prop :=
  exists s, objects w !! p = Some s /\ owned s = true.

(** *** The calls of the registry *)

Inductive call : Type :=
| CallInit (key_create : Z * Z)
| CallClearOwnedFlag (data : Z)
| CallEnterCritical (this : Z)
| CallGetCurrentThreadState (malloc : Z -> Z) (sizeof_ThreadState : Z)
    (fuel : nat) (t : nat).

(** What a call does. *)
Definition perform (c : call) (w : World) : result unit :=
  match c with
  | CallInit key_create => Init key_create w
  | CallClearOwnedFlag data =>
      match ClearOwnedFlag data w with
      | Some w' => Returned tt w'
      | None => Fault
      end
  | CallEnterCritical this => Returned tt (EnterCritical this w)
  | CallGetCurrentThreadState malloc sz fuel t =>
      forget (fst (GetCurrentThreadState malloc sz fuel t w))
  end.

(** The call asked [malloc] for memory and [malloc] answered [NULL]. Only
    [GetCurrentThreadState] allocates, and it does so exactly when it
    reaches the macro after its loop. *)
Definition allocation_failed (c : call) (w : World) : bool :=
  match c with
  | CallGetCurrentThreadState malloc sz fuel t =>
      match fst (GetCurrentThreadState malloc sz fuel t w) with
      | FellOffEnd _ _ =>
          bool_decide (malloc (Alloc.malloc_request sz) = 0)
      | _ => false
      end
  | _ => false
  end.

(** *** States used in the examples *)

(** The state before [Init]. *)
Definition fresh : World := mkWorld ∅ 0 nullptr false 0 ∅.

(** Two objects, at 64 and at 128; the head of the list is owned, the
    second object is free; thread 2 is bound to the head. *)
Definition two_slots : World :=
  mkWorld (<[64 := mkThreadState 0 true 128 0]>
             (<[128 := mkThreadState 1 false 0 0]> ∅))
          2 64 true 1 (<[2%nat := 64]> ∅).

(** The state [Init] leaves when [pthread_key_create] stores key 1. *)
Definition initialised : World := mkWorld ∅ 0 nullptr true 1 ∅.

(** Two objects again; here the head at 64 is free and the object at 128
    is owned by thread 2. *)
Definition free_head : World :=
  mkWorld (<[64 := mkThreadState 0 false 128 0]>
             (<[128 := mkThreadState 1 true 0 0]> ∅))
          2 64 true 1 (<[2%nat := 128]> ∅).

(** *** Notions used to state further properties *)

(** The registry a call leaves behind, when it leaves one. *)
Definition world_of {A : Type} (r : result A) : option World :=
  match r with
  | Returned _ w | FellOffEnd _ w | Spinning w => Some w
  | AssertFailed | Exited _ _ | Fault => None
  end.

(** The registry after [test_and_set] set the flag of the object [s] at
    [p] and [pthread_setspecific] bound [p] to thread [t]. *)
Definition claimed (t : nat) (p : Z) (s : ThreadState) (w : World) : World :=
  pthread_setspecific t p
    (with_objects (<[p := set_owned true s]> (objects w)) w).

(** Every thread that has a binding is bound to an object whose flag is
    set, and no two threads are bound to the same object. *)
Definition well_bound (w : World) : Prop :=
  (forall t, pthread_getspecific t w <> nullptr ->
             is_owned (pthread_getspecific t w) w) /\
  (forall t1 t2, pthread_getspecific t1 w <> nullptr ->
                 pthread_getspecific t1 w = pthread_getspecific t2 w ->
                 t1 = t2).

(** What neither a claim nor a release changes of an object. *)
Definition fixed_part (s : ThreadState) : Z * Z * Z :=
  (id s, next_p s, gc_p s).

(** Two registries with the same static data and the same objects up to
    the [owned] flags. *)
Definition same_shape (w w' : World) : Prop :=
  thread_state_head_p w' = thread_state_head_p w /\
  next_id w' = next_id w /\
  inited w' = inited w /\
  thread_state_key w' = thread_state_key w /\
  forall q, fixed_part <$> objects w' !! q = fixed_part <$> objects w !! q.

(** Thread [t] makes a claim in the step. *)
Definition claims_of (t : nat) (a : action) : bool :=
  match a with
  | Claim t' _ => bool_decide (t' = t)
  | Release _ => false
  end.

End Registry.

(** * Properties *)

(** ** The allocation macro *)

Module AllocFacts.
Import Alloc.

Lemma align_mask_val : align_mask = 2 ^ 64 - 64.
Proof. reflexivity. Qed.

(** Masking a 64-bit value with [~63] clears its six low bits. *)
Lemma land_align_mask (x : Z) :
  0 <= x < 2 ^ 64 -> Z.land x align_mask = 64 * (x / 64).
Proof.
  intros Hx.
  replace (64 * (x / 64)) with (Z.shiftl (Z.shiftr x 6) 6)
    by (rewrite Z.shiftl_mul_pow2, Z.shiftr_div_pow2 by lia;
        change (2 ^ 6) with 64; lia).
  replace align_mask with (Z.shiftl (Z.ones 58) 6) by reflexivity.
  apply Z.bits_inj'. intros n Hn.
  rewrite Z.land_spec.
  destruct (Z.lt_ge_cases n 6) as [Hlo | Hhi].
  - rewrite !Z.shiftl_spec_low by lia. apply andb_false_r.
  - rewrite !Z.shiftl_spec by lia.
    rewrite Z.shiftr_spec by lia.
    replace (n - 6 + 6) with n by lia.
    destruct (Z.lt_ge_cases n 64) as [Hin | Hout].
    + rewrite Z.ones_spec_low by lia. apply andb_true_r.
    + rewrite Z.ones_spec_high by lia. rewrite andb_false_r.
      symmetry. destruct (Z.eq_dec x 0) as [-> | Hnz].
      * apply Z.testbit_0_l.
      * apply Z.bits_above_log2; [lia |].
        assert (Z.log2 x < 64) by (apply Z.log2_lt_pow2; lia). lia.
Qed.

Lemma to_ulong_small (x : Z) : 0 <= x < 2 ^ 64 -> to_ulong x = x.
Proof. intros H. unfold to_ulong. apply Z.mod_small. lia. Qed.

(** The two additions of the macro, each reduced modulo [2^64], amount to
    one addition of 63 reduced once. *)
Lemma to_ulong_bump (m : Z) :
  to_ulong (to_ulong (to_ulong m + CACHE_LINE_SIZE) - 1) = to_ulong (m + 63).
Proof.
  unfold to_ulong, CACHE_LINE_SIZE.
  rewrite Zminus_mod_idemp_l.
  replace (m mod 2 ^ 64 + 64 - 1) with (m mod 2 ^ 64 + 63) by lia.
  apply Zplus_mod_idemp_l.
Qed.

(** Without wrap-around the macro rounds the address up to the next
    multiple of the cache line size. *)
Lemma align_up_round (m : Z) :
  0 <= m -> m + 63 < 2 ^ 64 -> align_up m = 64 * ((m + 63) / 64).
Proof.
  intros H0 H1. unfold align_up.
  rewrite to_ulong_bump, to_ulong_small by lia.
  apply land_align_mask. lia.
Qed.

Lemma align_up_aligned (m : Z) :
  0 <= m -> m + 63 < 2 ^ 64 -> align_up m mod CACHE_LINE_SIZE = 0.
Proof.
  intros H0 H1. rewrite align_up_round by assumption.
  unfold CACHE_LINE_SIZE. rewrite Z.mul_comm. apply Z.mod_mul. lia.
Qed.

Lemma align_up_bounds (m : Z) :
  0 <= m -> m + 63 < 2 ^ 64 -> m <= align_up m <= m + 63.
Proof.
  intros H0 H1. rewrite align_up_round by assumption.
  pose proof (Z.div_mod (m + 63) 64 ltac:(lia)) as Hdm.
  pose proof (Z.mod_pos_bound (m + 63) 64 ltac:(lia)) as Hb.
  lia.
Qed.

(** C7, as stated, fails for the sizes at which the size computation
    wraps. For the requested size [2^64 - 8] the macro asks [malloc] for
    120 bytes; [malloc] succeeds and returns the block of 120 bytes at
    1000, which lies in the address space; the macro yields 1024, a
    multiple of 64, but the block is not of [s + 2*CACHE_LINE_SIZE]
    bytes and the [s] bytes from 1024 on do not lie inside it. *)
Lemma cache_aligned_alloc_size_wraps :
  0 <= 2 ^ 64 - 8 < 2 ^ 64 /\
  malloc_request (2 ^ 64 - 8) = 120 /\
  malloc_request (2 ^ 64 - 8) <> (2 ^ 64 - 8) + 2 * CACHE_LINE_SIZE /\
  0 < 1000 /\ 1000 + malloc_request (2 ^ 64 - 8) <= 2 ^ 64 /\
  CACHE_ALIGNED_ALLOC (fun _ => 1000) (2 ^ 64 - 8) = 1024 /\
  ~ (CACHE_ALIGNED_ALLOC (fun _ => 1000) (2 ^ 64 - 8) + (2 ^ 64 - 8)
     <= 1000 + malloc_request (2 ^ 64 - 8)) /\
  ~ (forall (malloc : Z -> Z) (s m : Z),
       0 <= s < 2 ^ 64 ->
       malloc (malloc_request s) = m ->
       0 < m -> m + malloc_request s <= 2 ^ 64 ->
       CACHE_ALIGNED_ALLOC malloc s + s <= m + malloc_request s).
Proof.
  assert (Hs : 0 <= 2 ^ 64 - 8 < 2 ^ 64)
    by (split; [discriminate | reflexivity]).
  assert (Hfit : 1000 + malloc_request (2 ^ 64 - 8) <= 2 ^ 64)
    by discriminate.
  assert (Hout : ~ (CACHE_ALIGNED_ALLOC (fun _ => 1000) (2 ^ 64 - 8)
                    + (2 ^ 64 - 8)
                    <= 1000 + malloc_request (2 ^ 64 - 8)))
    by (intros H; apply H; reflexivity).
  split; [exact Hs |]. split; [reflexivity |]. split; [discriminate |].
  split; [reflexivity |]. split; [exact Hfit |]. split; [reflexivity |].
  split; [exact Hout |].
  intros H. apply Hout.
  exact (H (fun _ => 1000) (2 ^ 64 - 8) 1000 Hs eq_refl eq_refl Hfit).
Qed.

(** C7, amended. For every requested size [s] below
    [2^64 - 2*CACHE_LINE_SIZE], the sizes for which
    [s + 2*CACHE_LINE_SIZE] does not wrap in [size_t], when [malloc]
    succeeds, that is, returns the non-null address [m] of a block of the
    requested number of bytes lying in the 64-bit address space, that
    block is of [s + 2*CACHE_LINE_SIZE] bytes, the address
    [CACHE_ALIGNED_ALLOC(s)] yields is a non-null multiple of
    [CACHE_LINE_SIZE] (64), and the [s] bytes from that address on lie
    inside the block. *)
Theorem cache_aligned_alloc_in_block (malloc : Z -> Z) (s m : Z) :
  0 <= s < 2 ^ 64 - 2 * CACHE_LINE_SIZE ->
  malloc (malloc_request s) = m ->
  0 < m ->
  m + malloc_request s <= 2 ^ 64 ->
  malloc_request s = s + 2 * CACHE_LINE_SIZE /\
  CACHE_ALIGNED_ALLOC malloc s mod CACHE_LINE_SIZE = 0 /\
  CACHE_ALIGNED_ALLOC malloc s <> 0 /\
  m <= CACHE_ALIGNED_ALLOC malloc s /\
  CACHE_ALIGNED_ALLOC malloc s + s <= m + malloc_request s.
Proof.
  intros Hs Hm Hpos Hfit. unfold CACHE_ALIGNED_ALLOC. rewrite Hm.
  assert (Hreq : malloc_request s = s + 2 * CACHE_LINE_SIZE).
  { unfold malloc_request, CACHE_LINE_SIZE in *.
    rewrite to_ulong_small by lia. lia. }
  rewrite Hreq in *. unfold CACHE_LINE_SIZE in Hfit, Hs.
  pose proof (align_up_aligned m ltac:(lia) ltac:(lia)) as Hal.
  pose proof (align_up_bounds m ltac:(lia) ltac:(lia)) as Hbd.
  unfold CACHE_LINE_SIZE in *.
  repeat split; try assumption; lia.
Qed.

Lemma cache_aligned_alloc_in_block_witness :
  (0 <= 24 < 2 ^ 64 - 2 * CACHE_LINE_SIZE /\ 0 < 1000 /\
   1000 + malloc_request 24 <= 2 ^ 64) /\
  malloc_request 24 = 152 /\
  CACHE_ALIGNED_ALLOC (fun _ => 1000) 24 = 1024 /\
  CACHE_ALIGNED_ALLOC (fun _ => 1000) 24 mod CACHE_LINE_SIZE = 0 /\
  CACHE_ALIGNED_ALLOC (fun _ => 1000) 24 <> 0 /\
  1000 <= CACHE_ALIGNED_ALLOC (fun _ => 1000) 24 /\
  CACHE_ALIGNED_ALLOC (fun _ => 1000) 24 + 24 <= 1000 + malloc_request 24.
Proof.
  assert (H0 : 0 <= 24 < 2 ^ 64 - 2 * CACHE_LINE_SIZE)
    by (split; [lia | reflexivity]).
  assert (H1 : 0 < 1000) by lia.
  assert (H2 : 1000 + malloc_request 24 <= 2 ^ 64) by discriminate.
  split; [split; [exact H0 | split; [exact H1 | exact H2]] |].
  split; [reflexivity |]. split; [reflexivity |].
  exact (proj2 (cache_aligned_alloc_in_block (fun _ => 1000) 24 1000
                  H0 eq_refl H1 H2)).
Defined.

(** When [malloc] fails the macro yields the null address: nothing is
    reported and the process goes on. *)
Lemma cache_aligned_alloc_null (malloc : Z -> Z) (s : Z) :
  malloc (malloc_request s) = 0 -> CACHE_ALIGNED_ALLOC malloc s = 0.
Proof. intros H. unfold CACHE_ALIGNED_ALLOC. rewrite H. reflexivity. Qed.

End AllocFacts.

(** ** The registry *)

Module RegistryFacts.
Import Registry.

(** *** The flag operations *)

Lemma set_owned_same (s : ThreadState) : set_owned (owned s) s = s.
Proof. destruct s; reflexivity. Qed.

Lemma with_objects_same (w : World) : with_objects (objects w) w = w.
Proof. destruct w; reflexivity. Qed.

(** On a flag that is set, [test_and_set] reports it set and changes
    nothing. *)
Lemma test_and_set_owned (p : Z) (w : World) (s : ThreadState) :
  objects w !! p = Some s -> owned s = true ->
  test_and_set p w = Some (true, w).
Proof.
  intros Hp Ho. unfold test_and_set. rewrite Hp, Ho.
  rewrite <- Ho, set_owned_same, insert_id by assumption.
  by rewrite with_objects_same.
Qed.

Lemma claim_body_owned (t : nat) (p : Z) (w : World) (s : ThreadState) :
  objects w !! p = Some s -> owned s = true ->
  claim_body t p w = Some (false, w).
Proof.
  intros Hp Ho. unfold claim_body.
  by rewrite (test_and_set_owned p w s Hp Ho).
Qed.

(** On a clear flag the body of the loop sets it and binds the object to
    the calling thread. *)
Lemma claim_body_free (t : nat) (p : Z) (w : World) (s : ThreadState) :
  objects w !! p = Some s -> owned s = false ->
  claim_body t p w =
    Some (true, pthread_setspecific t p
                  (with_objects (<[p := set_owned true s]> (objects w)) w)).
Proof.
  intros Hp Ho. unfold claim_body, test_and_set. by rewrite Hp, Ho.
Qed.

Lemma claim_body_sets (t : nat) (p : Z) (w w' : World) (b : bool) :
  claim_body t p w = Some (b, w') -> is_owned p w'.
Proof.
  unfold claim_body, test_and_set.
  destruct (objects w !! p) as [s |] eqn:Hp; [| discriminate].
  simpl. destruct (owned s); simpl; intros [= <- <-];
    exists (set_owned true s); simpl; by rewrite lookup_insert_eq.
Qed.

Lemma claim_body_keeps (t : nat) (p q : Z) (w w' : World) (b : bool) :
  claim_body t q w = Some (b, w') -> is_owned p w -> is_owned p w'.
Proof.
  intros Hc Hown. destruct (decide (q = p)) as [-> | Hne].
  - eapply claim_body_sets; eassumption.
  - destruct Hown as (s & Hs & Ho). exists s. split; [| assumption].
    revert Hc. unfold claim_body, test_and_set.
    destruct (objects w !! q) as [s' |]; [| discriminate].
    simpl. destruct (owned s'); simpl; intros [= <- <-]; simpl;
      by rewrite lookup_insert_ne.
Qed.

Lemma clear_keeps (p q : Z) (w w' : World) :
  q <> p -> ClearOwnedFlag q w = Some w' -> is_owned p w -> is_owned p w'.
Proof.
  intros Hne Hc (s & Hs & Ho). exists s. split; [| assumption].
  revert Hc. unfold ClearOwnedFlag, clear.
  destruct (objects w !! q) as [s' |]; [| discriminate].
  intros [= <-]. simpl. by rewrite lookup_insert_ne.
Qed.

(** A flag that is set stays set along every interleaving that does not
    release it. *)
Lemma run_keeps_owned (p : Z) (l : list action) :
  forall w w' : World,
    forallb (fun a => negb (released p a)) l = true ->
    run l w = Some w' -> is_owned p w -> is_owned p w'.
Proof.
  induction l as [| a l IH]; simpl; intros w w' Hl Hrun Hown.
  - by injection Hrun as <-.
  - apply andb_true_iff in Hl as [Ha Hl].
    destruct (do_action a w) as [w1 |] eqn:Hstep; [| discriminate].
    apply (IH w1 w' Hl Hrun).
    destruct a as [t q | q]; simpl in *.
    + destruct (claim_body t q w) as [[b w2] |] eqn:Hc; [| discriminate].
      simpl in Hstep. injection Hstep as <-.
      eapply claim_body_keeps; eassumption.
    + apply negb_true_iff, bool_decide_eq_false in Ha.
      eapply clear_keeps; eassumption.
Qed.

(** *** The list of objects *)

Lemma slot_list_ext (m m' : gmap Z ThreadState) :
  (forall p, next_p <$> m' !! p = next_p <$> m !! p) ->
  forall fuel p, slot_list fuel p m' = slot_list fuel p m.
Proof.
  intros Hext fuel. induction fuel as [| fuel IH]; intros p; simpl; [done |].
  destruct (decide (p = nullptr)); [done |].
  specialize (Hext p).
  destruct (m' !! p) as [s' |], (m !! p) as [s |]; simpl in Hext;
    try discriminate; [| done].
  injection Hext as Hn. by rewrite Hn, IH.
Qed.

(** *** GetCurrentThreadState *)

(** At an object whose flag is set the loop never leaves that object: each
    iteration runs [test_and_set] on it again, and the loop is still
    running whatever fuel it is given. *)
Lemma claim_loop_owned (malloc : Z -> Z) (sz : Z) (t : nat) (p : Z)
    (w : World) (s : ThreadState) :
  p <> nullptr -> objects w !! p = Some s -> owned s = true ->
  forall (fuel : nat) (tas : list Z),
    claim_loop malloc sz fuel t p w tas = (Spinning w, tas ++ replicate fuel p).
Proof.
  intros Hp Hs Ho fuel.
  induction fuel as [| fuel IH]; intros tas; simpl.
  - rewrite decide_False by assumption. by rewrite app_nil_r.
  - rewrite decide_False by assumption.
    rewrite (claim_body_owned t p w s Hs Ho).
    rewrite IH. by rewrite <- app_assoc.
Qed.

(** At a null head the loop body is never run: the function evaluates the
    allocation macro and reaches its closing brace. *)
Lemma claim_loop_null (malloc : Z -> Z) (sz : Z) (fuel : nat) (t : nat)
    (w : World) (tas : list Z) :
  claim_loop malloc sz fuel t nullptr w tas =
    (FellOffEnd (Alloc.CACHE_ALIGNED_ALLOC malloc sz) w, tas).
Proof. destruct fuel; reflexivity. Qed.

(** When the head of the list is free, the first iteration claims it. *)
Lemma get_claims_free_head (malloc : Z -> Z) (sz : Z) (fuel : nat) (t : nat)
    (w : World) (s : ThreadState) :
  pthread_getspecific t w = nullptr ->
  thread_state_head_p w <> nullptr ->
  objects w !! thread_state_head_p w = Some s -> owned s = false ->
  exists w',
    GetCurrentThreadState malloc sz (S fuel) t w =
      (Returned (thread_state_head_p w) w', [thread_state_head_p w]) /\
    pthread_getspecific t w' = thread_state_head_p w /\
    is_owned (thread_state_head_p w) w'.
Proof.
  intros Hb Hh Hs Ho. unfold GetCurrentThreadState. rewrite Hb.
  rewrite decide_False by (intros H; by apply H).
  simpl. rewrite decide_False by assumption.
  rewrite (claim_body_free t _ w s Hs Ho).
  eexists. split; [reflexivity |]. split.
  - unfold pthread_getspecific, pthread_setspecific. simpl.
    by rewrite lookup_insert_eq.
  - exists (set_owned true s). simpl. by rewrite lookup_insert_eq.
Qed.

(** C1. The walk of the slot list does not do what is claimed. In the
    registry [two_slots] the list is 64 -> 128, the object at 64 is owned
    and the one at 128 is free. Thread 7 has no binding. Whatever the
    fuel, its call is still in the loop when the fuel runs out, every
    [test_and_set] it executed was on the object at 64, and the registry
    is as before: the free object at 128 is never visited nor claimed,
    and thread 7 is bound to nothing. *)
Theorem walk_never_leaves_owned_head :
  forall (malloc : Z -> Z) (sz : Z) (fuel : nat),
    pthread_getspecific 7 two_slots = nullptr /\
    slot_list 3 (thread_state_head_p two_slots) (objects two_slots)
      = [64; 128] /\
    (owned <$> objects two_slots !! 128) = Some false /\
    GetCurrentThreadState malloc sz fuel 7 two_slots =
      (Spinning two_slots, replicate fuel 64).
Proof.
  intros malloc sz fuel.
  split; [reflexivity |]. split; [reflexivity |]. split; [reflexivity |].
  unfold GetCurrentThreadState.
  change (pthread_getspecific 7 two_slots) with nullptr.
  rewrite decide_False by (intros H; by apply H).
  change (thread_state_head_p two_slots) with 64.
  by rewrite (claim_loop_owned malloc sz 7 64 two_slots
                (mkThreadState 0 true 128 0)).
Qed.

(** C2. With an empty list nothing is appended, claimed, bound or
    returned. In the registry that [Init] leaves, thread 0 (no binding)
    calls [GetCurrentThreadState] with an allocator answering 4096: the
    macro yields the aligned address 4096 into the local pointer, and the
    closing brace is reached with no return statement; the head of the
    list is still null, there is still no object, and thread 0 is still
    bound to nothing. *)
Theorem empty_list_allocates_and_drops :
  forall fuel : nat,
    Init (0, 1) fresh = Returned tt initialised /\
    GetCurrentThreadState (fun _ => 4096) 24 fuel 0 initialised =
      (FellOffEnd 4096 initialised, []) /\
    thread_state_head_p initialised = nullptr /\
    objects initialised = ∅ /\
    pthread_getspecific 0 initialised = nullptr.
Proof.
  intros fuel. split; [reflexivity |]. split; [| done].
  unfold GetCurrentThreadState.
  change (pthread_getspecific 0 initialised) with nullptr.
  rewrite decide_False by (intros H; by apply H).
  change (thread_state_head_p initialised) with nullptr.
  by rewrite claim_loop_null.
Qed.

(** C3. For a thread whose binding is present (pthread_getspecific yields
    a non-null object), [GetCurrentThreadState] returns that object,
    executes no [test_and_set], and leaves the registry (every object,
    the head of the list, every binding) as it was. *)
Theorem bound_thread_fast_path (malloc : Z -> Z) (sz : Z) (fuel : nat)
    (t : nat) (w : World) (p : Z) :
  pthread_getspecific t w = p ->
  p <> nullptr ->
  GetCurrentThreadState malloc sz fuel t w = (Returned p w, []).
Proof.
  intros Hb Hp. unfold GetCurrentThreadState. rewrite Hb.
  by rewrite decide_True.
Qed.

Lemma bound_thread_fast_path_witness :
  pthread_getspecific 2 two_slots = 64 /\ 64 <> nullptr /\
  GetCurrentThreadState (fun _ => 0) 24 0 2 two_slots
    = (Returned 64 two_slots, []).
Proof.
  assert (H1 : pthread_getspecific 2 two_slots = 64) by reflexivity.
  assert (H2 : 64 <> nullptr) by discriminate.
  split; [exact H1 |]. split; [exact H2 |].
  exact (bound_thread_fast_path (fun _ => 0) 24 0 2 two_slots 64 H1 H2).
Defined.

(** *** ClearOwnedFlag *)

(** C4. [ClearOwnedFlag], given an object, clears the [owned] flag of that
    object and nothing else: its [id], [next_p] and [gc_p] are as before,
    every other object is as before, no object is added or removed, the
    list met from any address along [next_p] (so from the head too) is
    the same, and the static data and the bindings are unchanged. *)
Theorem clear_owned_flag_frame (data : Z) (w : World) (s : ThreadState) :
  objects w !! data = Some s ->
  exists w',
    ClearOwnedFlag data w = Some w' /\
    objects w' !! data = Some (mkThreadState (id s) false (next_p s) (gc_p s)) /\
    (forall q, q <> data -> objects w' !! q = objects w !! q) /\
    dom (objects w') = dom (objects w) /\
    (forall fuel p,
       slot_list fuel p (objects w') = slot_list fuel p (objects w)) /\
    thread_state_head_p w' = thread_state_head_p w /\
    next_id w' = next_id w /\
    inited w' = inited w /\
    thread_state_key w' = thread_state_key w /\
    specific w' = specific w.
Proof.
  intros Hs. unfold ClearOwnedFlag, clear. rewrite Hs.
  eexists. split; [reflexivity |]. simpl.
  split; [by rewrite lookup_insert_eq |].
  split; [intros q Hq; by rewrite lookup_insert_ne |].
  split.
  { apply set_eq. intros q. rewrite !elem_of_dom.
    destruct (decide (q = data)) as [-> | Hq].
    - rewrite lookup_insert_eq, Hs. split; intros _; eauto.
    - by rewrite lookup_insert_ne. }
  split; [| done].
  apply slot_list_ext. intros q.
  destruct (decide (q = data)) as [-> | Hq].
  - by rewrite lookup_insert_eq, Hs.
  - by rewrite lookup_insert_ne.
Qed.

Lemma clear_owned_flag_frame_witness :
  objects two_slots !! 64 = Some (mkThreadState 0 true 128 0) /\
  exists w',
    ClearOwnedFlag 64 two_slots = Some w' /\
    objects w' !! 64 = Some (mkThreadState 0 false 128 0) /\
    (forall q, q <> 64 -> objects w' !! q = objects two_slots !! q) /\
    dom (objects w') = dom (objects two_slots) /\
    (forall fuel p,
       slot_list fuel p (objects w') = slot_list fuel p (objects two_slots)) /\
    thread_state_head_p w' = thread_state_head_p two_slots /\
    next_id w' = next_id two_slots /\
    inited w' = inited two_slots /\
    thread_state_key w' = thread_state_key two_slots /\
    specific w' = specific two_slots.
Proof.
  assert (H : objects two_slots !! 64 = Some (mkThreadState 0 true 128 0))
    by reflexivity.
  split; [exact H |].
  exact (clear_owned_flag_frame 64 two_slots (mkThreadState 0 true 128 0) H).
Defined.

(** *** Init *)

(** C10. [Init] asserts that it has not run: called with [inited] set it
    fails the assertion, so a call that follows a completed one fails it.
    Called with [inited] clear, when [pthread_key_create] succeeds
    (returns 0), it returns with [next_id] 0, a null
    [thread_state_head_p] and [inited] set. *)
Theorem init_runs_once (rc key : Z) (w : World) :
  (inited w = true -> Init (rc, key) w = AssertFailed) /\
  (inited w = false -> rc = 0 ->
   exists w',
     Init (rc, key) w = Returned tt w' /\
     next_id w' = 0 /\
     thread_state_head_p w' = nullptr /\
     inited w' = true /\
     forall again, Init again w' = AssertFailed).
Proof.
  unfold Init. split.
  - intros ->. reflexivity.
  - intros -> ->. simpl. eexists. split; [reflexivity |]. done.
Qed.

Lemma init_runs_once_witness :
  (inited initialised = true /\ Init (0, 1) initialised = AssertFailed) /\
  (inited fresh = false /\
   exists w',
     Init (0, 1) fresh = Returned tt w' /\
     next_id w' = 0 /\
     thread_state_head_p w' = nullptr /\
     inited w' = true /\
     forall again, Init again w' = AssertFailed).
Proof.
  split.
  - split; [reflexivity |].
    exact (proj1 (init_runs_once 0 1 initialised) eq_refl).
  - split; [reflexivity |].
    exact (proj2 (init_runs_once 0 1 fresh) eq_refl eq_refl).
Defined.

(** *** EnterCritical *)

(** C6. [EnterCritical] records nothing: called on the owned object at 64
    of [two_slots] (the one thread 2 is bound to), it leaves that object
    with the four members it had, and the whole registry as it was; the
    same holds for every object and every registry. *)
Theorem enter_critical_records_nothing :
  pthread_getspecific 2 two_slots = 64 /\
  objects (EnterCritical 64 two_slots) !! 64
    = Some (mkThreadState 0 true 128 0) /\
  forall (this : Z) (w : World), EnterCritical this w = w.
Proof. split; [reflexivity |]. split; reflexivity. Qed.

(** *** Ownership under interleaving *)

(** C9. An object is never claimed by two threads at once: after a claim
    of thread [t1] on the object [p] succeeded ([test_and_set] found the
    flag clear), along every interleaving [mid] of claims by any threads
    on any objects and of releases of other objects, that is, as long as
    [ClearOwnedFlag] has not been run on [p], the claim of any thread [t2]
    on [p] fails: its [test_and_set] finds the flag set, it binds nothing
    and changes nothing. *)
Theorem claim_excludes_until_release (t1 t2 : nat) (p : Z)
    (w0 w1 w2 : World) (mid : list action) :
  claim_body t1 p w0 = Some (true, w1) ->
  forallb (fun a => negb (released p a)) mid = true ->
  run mid w1 = Some w2 ->
  test_and_set p w2 = Some (true, w2) /\
  claim_body t2 p w2 = Some (false, w2).
Proof.
  intros Hclaim Hmid Hrun.
  assert (Hown : is_owned p w2).
  { eapply run_keeps_owned; [exact Hmid | exact Hrun |].
    eapply claim_body_sets. exact Hclaim. }
  destruct Hown as (s & Hs & Ho). split.
  - eapply test_and_set_owned; eassumption.
  - eapply claim_body_owned; eassumption.
Qed.

Lemma claim_excludes_until_release_witness :
  let mid := [Claim 6 64; Release 64; Claim 7 64; Claim 9 128] in
  exists w1 w2,
    claim_body 5 128 two_slots = Some (true, w1) /\
    forallb (fun a => negb (released 128 a)) mid = true /\
    run mid w1 = Some w2 /\
    test_and_set 128 w2 = Some (true, w2) /\
    claim_body 8 128 w2 = Some (false, w2).
Proof.
  intros mid. eexists _, _.
  split; [reflexivity |]. split; [reflexivity |]. split; [reflexivity |].
  eapply (claim_excludes_until_release 5 8 128 two_slots _ _ mid);
    reflexivity.
Defined.

(** *** Reported errors and assertions *)

(** The loop and what follows it execute neither [exit] nor an
    assertion. *)
Lemma claim_loop_no_exit (malloc : Z -> Z) (sz : Z) (t : nat) (p : Z) :
  forall (fuel : nat) (w : World) (tas : list Z),
    match fst (claim_loop malloc sz fuel t p w tas) with
    | AssertFailed | Exited _ _ => False
    | _ => True
    end.
Proof.
  induction fuel as [| fuel IH]; intros w tas; simpl;
    destruct (decide (p = nullptr)); try exact I.
  destruct (claim_body t p w) as [[[|] w'] |]; try exact I.
  apply IH.
Qed.

Lemma get_no_exit (malloc : Z -> Z) (sz : Z) (fuel : nat) (t : nat)
    (w : World) :
  match fst (GetCurrentThreadState malloc sz fuel t w) with
  | AssertFailed | Exited _ _ => False
  | _ => True
  end.
Proof.
  unfold GetCurrentThreadState.
  destruct (decide (pthread_getspecific t w <> nullptr)); [exact I |].
  apply claim_loop_no_exit.
Qed.

(** C5, as stated, fails on the code. [Init] called on the fresh registry
    with [pthread_key_create] answering the error code 11 reports the
    error (perror) and ends the process (exit with status 1), and no
    allocation failed in that call, nor was any attempted. So it is not
    true that the registry reports an error and terminates the process on
    allocation failure only. *)
Lemma reported_exit_without_allocation_failure :
  perform (CallInit (11, 0)) fresh
    = Exited 1 "ThreadState::Init::pthread_key_create()" /\
  allocation_failed (CallInit (11, 0)) fresh = false /\
  ~ (forall c w status report,
       perform c w = Exited status report -> allocation_failed c w = true).
Proof.
  split; [reflexivity |]. split; [reflexivity |].
  intros H.
  discriminate (H (CallInit (11, 0)) fresh 1
                  "ThreadState::Init::pthread_key_create()"%string eq_refl).
Qed.

(** C5, amended. The error the registry reports and ends the process on
    is the failure of [pthread_key_create] in [Init]: a call of the
    registry ends in perror followed by exit exactly when it is [Init],
    called with [inited] clear, and [pthread_key_create] returns
    non-zero; the status is then 1 and the report names
    [pthread_key_create]. And a call fails an assertion exactly when it
    is [Init] called with [inited] already set. Nothing is said of
    allocation failure, nor of what becomes of the process on the paths
    whose behaviour is undefined. *)
Theorem reported_exit_only_in_init :
  (forall c w status report,
     perform c w = Exited status report <->
     (exists key_create,
        c = CallInit key_create /\ inited w = false /\
        fst key_create <> 0) /\
     status = 1 /\
     report = "ThreadState::Init::pthread_key_create()"%string) /\
  (forall c w,
     perform c w = AssertFailed <->
     exists key_create, c = CallInit key_create /\ inited w = true).
Proof.
  split.
  - intros c w status report. split.
    + destruct c as [kc | data | this | malloc sz fuel t]; simpl.
      * unfold Init. destruct (inited w); [discriminate |].
        destruct (decide (fst kc = 0)) as [Hk | Hk]; [discriminate |].
        intros [= <- <-]. split; [by exists kc | by split].
      * destruct (ClearOwnedFlag data w); discriminate.
      * discriminate.
      * pose proof (get_no_exit malloc sz fuel t w) as Hn.
        destruct (fst (GetCurrentThreadState malloc sz fuel t w));
          simpl; try discriminate; by destruct Hn.
    + intros [(kc & -> & Hi & Hk) [-> ->]]. simpl. unfold Init.
      rewrite Hi. by rewrite decide_False.
  - intros c w. split.
    + destruct c as [kc | data | this | malloc sz fuel t]; simpl.
      * unfold Init. destruct (inited w); [intros _; by exists kc |].
        destruct (decide (fst kc = 0)); discriminate.
      * destruct (ClearOwnedFlag data w); discriminate.
      * discriminate.
      * pose proof (get_no_exit malloc sz fuel t w) as Hn.
        destruct (fst (GetCurrentThreadState malloc sz fuel t w));
          simpl; try discriminate; by destruct Hn.
    + intros (kc & -> & Hi). simpl. unfold Init. by rewrite Hi.
Qed.

Lemma reported_exit_only_in_init_witness :
  ((exists key_create,
      CallInit (11, 0) = CallInit key_create /\ inited fresh = false /\
      fst key_create <> 0) /\
   perform (CallInit (11, 0)) fresh
     = Exited 1 "ThreadState::Init::pthread_key_create()") /\
  ((exists key_create,
      CallInit (0, 1) = CallInit key_create /\ inited initialised = true) /\
   perform (CallInit (0, 1)) initialised = AssertFailed).
Proof.
  assert (H1 : exists key_create,
             CallInit (11, 0) = CallInit key_create /\ inited fresh = false /\
             fst key_create <> 0).
  { exists (11, 0). split; [reflexivity |]. split; [reflexivity | discriminate]. }
  assert (H2 : exists key_create,
             CallInit (0, 1) = CallInit key_create /\
             inited initialised = true).
  { exists (0, 1). split; reflexivity. }
  split.
  - split; [exact H1 |].
    exact (proj2 (proj1 reported_exit_only_in_init (CallInit (11, 0)) fresh 1
                    "ThreadState::Init::pthread_key_create()"%string)
             (conj H1 (conj eq_refl eq_refl))).
  - split; [exact H2 |].
    exact (proj2 (proj2 reported_exit_only_in_init (CallInit (0, 1))
                    initialised) H2).
Defined.

End RegistryFacts.

(** ** More on the allocation macro *)

Module AllocMore.
Import Alloc AllocFacts.

(** For every address the macro is, after the wrapped additions, a
    multiple of 64 below the wrapped address plus 63. *)
Lemma align_up_floor (m : Z) :
  align_up m = 64 * (to_ulong (m + 63) / 64).
Proof.
  unfold align_up. rewrite to_ulong_bump.
  apply land_align_mask. unfold to_ulong.
  pose proof (Z.mod_pos_bound (m + 63) (2 ^ 64) ltac:(lia)). lia.
Qed.

(** X1. Whatever [malloc] answers and whatever size is requested, the address
    the macro yields is a multiple of the cache line size and fits in an
    [unsigned long]. *)
Theorem alloc_result_always_aligned (malloc : Z -> Z) (s : Z) :
  CACHE_ALIGNED_ALLOC malloc s mod CACHE_LINE_SIZE = 0 /\
  0 <= CACHE_ALIGNED_ALLOC malloc s < 2 ^ 64.
Proof.
  unfold CACHE_ALIGNED_ALLOC, CACHE_LINE_SIZE.
  rewrite align_up_floor.
  set (x := to_ulong (malloc (malloc_request s) + 63)).
  assert (Hx : 0 <= x < 2 ^ 64)
    by (apply Z.mod_pos_bound; lia).
  split.
  - rewrite Z.mul_comm. apply Z.mod_mul. lia.
  - pose proof (Z.div_mod x 64 ltac:(lia)).
    pose proof (Z.mod_pos_bound x 64 ltac:(lia)). lia.
Qed.

(** X2. When the address [m] that [malloc] returned is not within 63 bytes of
    the top of the address space, the macro yields the least multiple of
    64 that is not below [m]; it lies at most 63 bytes above [m]. *)
Theorem alloc_result_least_aligned (malloc : Z -> Z) (s m : Z) :
  malloc (malloc_request s) = m ->
  0 <= m -> m + 63 < 2 ^ 64 ->
  CACHE_ALIGNED_ALLOC malloc s mod CACHE_LINE_SIZE = 0 /\
  m <= CACHE_ALIGNED_ALLOC malloc s <= m + 63 /\
  forall k, k mod CACHE_LINE_SIZE = 0 -> m <= k ->
            CACHE_ALIGNED_ALLOC malloc s <= k.
Proof.
  intros Hm H0 H1. unfold CACHE_ALIGNED_ALLOC. rewrite Hm.
  split; [by apply align_up_aligned |].
  split; [by apply align_up_bounds |].
  intros k Hk Hle. rewrite align_up_round by assumption.
  unfold CACHE_LINE_SIZE in Hk.
  pose proof (Z.div_mod k 64 ltac:(lia)) as Hkq.
  pose proof (Z.div_mod (m + 63) 64 ltac:(lia)) as Hdm.
  pose proof (Z.mod_pos_bound (m + 63) 64 ltac:(lia)) as Hb.
  lia.
Qed.

Lemma alloc_result_least_aligned_witness :
  (0 <= 1000 /\ 1000 + 63 < 2 ^ 64) /\
  CACHE_ALIGNED_ALLOC (fun _ => 1000) 24 = 1024 /\
  CACHE_ALIGNED_ALLOC (fun _ => 1000) 24 mod CACHE_LINE_SIZE = 0 /\
  1000 <= CACHE_ALIGNED_ALLOC (fun _ => 1000) 24 <= 1000 + 63 /\
  (1088 mod CACHE_LINE_SIZE = 0 /\ 1000 <= 1088 /\
   CACHE_ALIGNED_ALLOC (fun _ => 1000) 24 <= 1088).
Proof.
  assert (H0 : 0 <= 1000) by lia.
  assert (H1 : 1000 + 63 < 2 ^ 64) by reflexivity.
  assert (Hk : 1088 mod CACHE_LINE_SIZE = 0) by reflexivity.
  assert (Hle : 1000 <= 1088) by lia.
  pose proof (alloc_result_least_aligned (fun _ => 1000) 24 1000
                eq_refl H0 H1) as (Ha & Hb & Hc).
  split; [split; assumption |]. split; [reflexivity |].
  split; [exact Ha |]. split; [exact Hb |].
  split; [exact Hk |]. split; [exact Hle | exact (Hc 1088 Hk Hle)].
Defined.

(** X3. An address that [malloc] returns already aligned is kept as it is. *)
Theorem alloc_aligned_address_kept (malloc : Z -> Z) (s m : Z) :
  malloc (malloc_request s) = m ->
  0 <= m < 2 ^ 64 -> m mod CACHE_LINE_SIZE = 0 ->
  CACHE_ALIGNED_ALLOC malloc s = m.
Proof.
  intros Hm Hr Ha. unfold CACHE_ALIGNED_ALLOC. rewrite Hm.
  unfold CACHE_LINE_SIZE in Ha.
  pose proof (Z.div_mod m 64 ltac:(lia)) as Hq.
  assert (Htop : m + 63 < 2 ^ 64).
  { change (2 ^ 64) with (64 * 2 ^ 58) in *. lia. }
  rewrite align_up_round by lia.
  pose proof (Z.div_mod (m + 63) 64 ltac:(lia)) as Hdm.
  pose proof (Z.mod_pos_bound (m + 63) 64 ltac:(lia)) as Hb.
  lia.
Qed.

Lemma alloc_aligned_address_kept_witness :
  (0 <= 4096 < 2 ^ 64 /\ 4096 mod CACHE_LINE_SIZE = 0) /\
  CACHE_ALIGNED_ALLOC (fun _ => 4096) 24 = 4096.
Proof.
  assert (Hr : 0 <= 4096 < 2 ^ 64) by (split; [lia | reflexivity]).
  assert (Ha : 4096 mod CACHE_LINE_SIZE = 0) by reflexivity.
  split; [split; assumption |].
  exact (alloc_aligned_address_kept (fun _ => 4096) 24 4096 eq_refl Hr Ha).
Defined.

(** X4. The macro yields the null address in two cases only: [malloc]
    returned null, or it returned one of the last 63 addresses of the
    address space, where the addition wraps around. *)
Theorem alloc_null_iff (malloc : Z -> Z) (s m : Z) :
  malloc (malloc_request s) = m ->
  0 <= m < 2 ^ 64 ->
  (CACHE_ALIGNED_ALLOC malloc s = 0 <-> m = 0 \/ 2 ^ 64 - 64 < m).
Proof.
  intros Hm Hr. unfold CACHE_ALIGNED_ALLOC. rewrite Hm.
  destruct (Z_lt_le_dec (m + 63) (2 ^ 64)) as [Hlo | Hhi].
  - pose proof (align_up_bounds m ltac:(lia) Hlo) as Hb. split.
    + intros H0. left. lia.
    + intros [-> | Hbig]; [reflexivity | lia].
  - split; [intros _; right; lia | intros _].
    rewrite align_up_floor. unfold to_ulong.
    replace ((m + 63) mod 2 ^ 64) with (m + 63 - 2 ^ 64).
    2: { apply Z.mod_unique with (q := 1); lia. }
    rewrite Z.div_small by lia. reflexivity.
Qed.

Lemma alloc_null_iff_witness :
  0 <= 2 ^ 64 - 1 < 2 ^ 64 /\
  (2 ^ 64 - 1 = 0 \/ 2 ^ 64 - 64 < 2 ^ 64 - 1) /\
  CACHE_ALIGNED_ALLOC (fun _ => 2 ^ 64 - 1) 24 = 0.
Proof.
  assert (Hr : 0 <= 2 ^ 64 - 1 < 2 ^ 64) by (split; [discriminate | reflexivity]).
  assert (Hc : 2 ^ 64 - 1 = 0 \/ 2 ^ 64 - 64 < 2 ^ 64 - 1)
    by (right; reflexivity).
  split; [exact Hr |]. split; [exact Hc |].
  exact (proj2 (alloc_null_iff (fun _ => 2 ^ 64 - 1) 24 (2 ^ 64 - 1)
                  eq_refl Hr) Hc).
Defined.

(** X5. The size handed to [malloc] is computed in [size_t]: below
    [2^64 - 128] it is the requested size plus two cache lines, and from
    there on it wraps around and is smaller than the size requested. *)
Theorem malloc_request_wraps (s : Z) :
  0 <= s < 2 ^ 64 ->
  (s < 2 ^ 64 - 128 -> malloc_request s = s + 2 * CACHE_LINE_SIZE) /\
  (2 ^ 64 - 128 <= s -> malloc_request s = s + 128 - 2 ^ 64 /\
                        malloc_request s < s).
Proof.
  intros Hs. unfold malloc_request, to_ulong, CACHE_LINE_SIZE. split.
  - intros Hlt. rewrite Z.mod_small by lia. lia.
  - intros Hge.
    assert (H : (s + 64 * 2) mod 2 ^ 64 = s + 128 - 2 ^ 64).
    { symmetry. apply Z.mod_unique with (q := 1); lia. }
    rewrite H. lia.
Qed.

Lemma malloc_request_wraps_witness :
  (0 <= 24 < 2 ^ 64 /\ 24 < 2 ^ 64 - 128 /\ malloc_request 24 = 152) /\
  (0 <= 2 ^ 64 - 8 < 2 ^ 64 /\ 2 ^ 64 - 128 <= 2 ^ 64 - 8 /\
   malloc_request (2 ^ 64 - 8) = 120 /\
   malloc_request (2 ^ 64 - 8) < 2 ^ 64 - 8).
Proof.
  assert (H1 : 0 <= 24 < 2 ^ 64) by (split; [lia | reflexivity]).
  assert (H2 : 24 < 2 ^ 64 - 128) by reflexivity.
  assert (H3 : 0 <= 2 ^ 64 - 8 < 2 ^ 64)
    by (split; [discriminate | reflexivity]).
  assert (H4 : 2 ^ 64 - 128 <= 2 ^ 64 - 8) by discriminate.
  split.
  - split; [exact H1 |]. split; [exact H2 |].
    exact (proj1 (malloc_request_wraps 24 H1) H2).
  - split; [exact H3 |]. split; [exact H4 |].
    exact (proj2 (malloc_request_wraps (2 ^ 64 - 8) H3) H4).
Defined.

End AllocMore.

(** ** More on the registry *)

Module RegistryMore.
Import Registry RegistryFacts.

(** *** What a call of GetCurrentThreadState amounts to *)

Lemma claim_body_missing (t : nat) (p : Z) (w : World) :
  objects w !! p = None -> claim_body t p w = None.
Proof. intros H. unfold claim_body, test_and_set. by rewrite H. Qed.

(** With fuel for one iteration at least, the loop is decided by the
    object it starts at. *)
Lemma claim_loop_cases (malloc : Z -> Z) (sz : Z) (fuel : nat) (t : nat)
    (p : Z) (w : World) (tas : list Z) :
  claim_loop malloc sz (S fuel) t p w tas =
    if decide (p = nullptr)
    then (FellOffEnd (Alloc.CACHE_ALIGNED_ALLOC malloc sz) w, tas)
    else match objects w !! p with
         | None => (Fault, tas)
         | Some s =>
             if owned s
             then (Spinning w, tas ++ replicate (S fuel) p)
             else (Returned p (claimed t p s w), tas ++ [p])
         end.
Proof.
  destruct (decide (p = nullptr)) as [Hp | Hp].
  - simpl. by rewrite decide_True.
  - destruct (objects w !! p) as [s |] eqn:Hs.
    + destruct (owned s) eqn:Ho.
      * by apply (claim_loop_owned malloc sz t p w s).
      * simpl. rewrite decide_False by assumption.
        by rewrite (claim_body_free t p w s Hs Ho).
    + simpl. rewrite decide_False by assumption.
      by rewrite claim_body_missing.
Qed.

Lemma get_cases (malloc : Z -> Z) (sz : Z) (fuel : nat) (t : nat)
    (w : World) :
  GetCurrentThreadState malloc sz (S fuel) t w =
    if decide (pthread_getspecific t w <> nullptr)
    then (Returned (pthread_getspecific t w) w, [])
    else if decide (thread_state_head_p w = nullptr)
    then (FellOffEnd (Alloc.CACHE_ALIGNED_ALLOC malloc sz) w, [])
    else match objects w !! thread_state_head_p w with
         | None => (Fault, [])
         | Some s =>
             if owned s
             then (Spinning w, replicate (S fuel) (thread_state_head_p w))
             else (Returned (thread_state_head_p w)
                     (claimed t (thread_state_head_p w) s w),
                   [thread_state_head_p w])
         end.
Proof.
  unfold GetCurrentThreadState.
  destruct (decide (pthread_getspecific t w <> nullptr)); [done |].
  by rewrite claim_loop_cases.
Qed.

Lemma get_no_fuel (malloc : Z -> Z) (sz : Z) (t : nat) (w : World) :
  GetCurrentThreadState malloc sz 0 t w =
    if decide (pthread_getspecific t w <> nullptr)
    then (Returned (pthread_getspecific t w) w, [])
    else if decide (thread_state_head_p w = nullptr)
    then (FellOffEnd (Alloc.CACHE_ALIGNED_ALLOC malloc sz) w, [])
    else (Spinning w, []).
Proof. reflexivity. Qed.

Lemma not_not_null (p : Z) : ~ p <> nullptr -> p = nullptr.
Proof. intros H. destruct (decide (p = nullptr)); [done | by destruct H]. Qed.

Lemma getspecific_claimed (t : nat) (p : Z) (s : ThreadState) (w : World) :
  pthread_getspecific t (claimed t p s w) = p.
Proof.
  unfold pthread_getspecific, claimed, pthread_setspecific. simpl.
  by rewrite lookup_insert_eq.
Qed.

Lemma getspecific_claimed_other (t t' : nat) (p : Z) (s : ThreadState)
    (w : World) :
  t' <> t ->
  pthread_getspecific t' (claimed t p s w) = pthread_getspecific t' w.
Proof.
  intros Hne. unfold pthread_getspecific, claimed, pthread_setspecific.
  simpl. by rewrite lookup_insert_ne.
Qed.

Lemma is_owned_claimed (t : nat) (p : Z) (s : ThreadState) (w : World) :
  is_owned p (claimed t p s w).
Proof.
  exists (set_owned true s). unfold claimed. simpl.
  by rewrite lookup_insert_eq.
Qed.

Lemma is_owned_claimed_other (t : nat) (p q : Z) (s : ThreadState)
    (w : World) :
  is_owned q w -> is_owned q (claimed t p s w).
Proof.
  intros (s' & Hs' & Ho). destruct (decide (q = p)) as [-> | Hne].
  - apply is_owned_claimed.
  - exists s'. unfold claimed. simpl. by rewrite lookup_insert_ne.
Qed.

(** The registry a call leaves is the one it found, or the one in which
    the calling thread claimed the free head of the list. *)
Lemma get_world_cases (malloc : Z -> Z) (sz : Z) (fuel : nat) (t : nat)
    (w w' : World) :
  world_of (fst (GetCurrentThreadState malloc sz fuel t w)) = Some w' ->
  w' = w \/
  exists s,
    pthread_getspecific t w = nullptr /\
    thread_state_head_p w <> nullptr /\
    objects w !! thread_state_head_p w = Some s /\
    owned s = false /\
    w' = claimed t (thread_state_head_p w) s w.
Proof.
  destruct fuel as [| fuel].
  - rewrite get_no_fuel. repeat case_decide; simpl; intros [= <-]; by left.
  - rewrite get_cases.
    destruct (decide (pthread_getspecific t w <> nullptr)) as [Hb | Hb];
      [simpl; intros [= <-]; by left |].
    destruct (decide (thread_state_head_p w = nullptr)) as [Hh | Hh];
      [simpl; intros [= <-]; by left |].
    destruct (objects w !! thread_state_head_p w) as [s |] eqn:Hs;
      [| discriminate].
    destruct (owned s) eqn:Ho; simpl; intros [= <-]; [by left | right].
    exists s. by apply not_not_null in Hb.
Qed.

(** *** GetCurrentThreadState: what it returns *)

(** X6. A slot returned by [GetCurrentThreadState] is never null and is the
    calling thread's binding afterwards. It is either the binding the
    thread already had, with the registry untouched, or the head of the
    list, which was free and is now owned. *)
Theorem get_returns_binding_or_head (malloc : Z -> Z) (sz : Z)
    (fuel : nat) (t : nat) (w w' : World) (p : Z) :
  fst (GetCurrentThreadState malloc sz fuel t w) = Returned p w' ->
  p <> nullptr /\
  pthread_getspecific t w' = p /\
  ((pthread_getspecific t w = p /\ w' = w) \/
   (pthread_getspecific t w = nullptr /\ p = thread_state_head_p w /\
    is_owned p w' /\
    exists s, objects w !! p = Some s /\ owned s = false)).
Proof.
  destruct fuel as [| fuel].
  - rewrite get_no_fuel. repeat case_decide; simpl; try discriminate.
    intros [= <- <-]. split; [assumption |]. split; [reflexivity |].
    by left.
  - rewrite get_cases.
    destruct (decide (pthread_getspecific t w <> nullptr)) as [Hb | Hb].
    { simpl. intros [= <- <-]. split; [assumption |].
      split; [reflexivity |]. by left. }
    destruct (decide (thread_state_head_p w = nullptr)) as [Hh | Hh];
      [discriminate |].
    destruct (objects w !! thread_state_head_p w) as [s |] eqn:Hs;
      [| discriminate].
    destruct (owned s) eqn:Ho; simpl; [discriminate |].
    intros [= <- <-]. split; [assumption |].
    split; [apply getspecific_claimed |]. right.
    split; [by apply not_not_null |]. split; [reflexivity |].
    split; [apply is_owned_claimed |]. by exists s.
Qed.

Lemma get_returns_binding_or_head_witness :
  exists w',
    fst (GetCurrentThreadState (fun _ => 0) 24 1 7
           (with_objects (<[64 := mkThreadState 0 false 128 0]>
                            (objects two_slots)) two_slots))
      = Returned 64 w' /\
    64 <> nullptr /\
    pthread_getspecific 7 w' = 64.
Proof.
  eexists. split; [reflexivity |].
  pose proof (get_returns_binding_or_head (fun _ => 0) 24 1 7
                (with_objects (<[64 := mkThreadState 0 false 128 0]>
                                 (objects two_slots)) two_slots)
                _ 64 eq_refl) as H.
  split; [exact (proj1 H) | exact (proj1 (proj2 H))].
Defined.

(** X7. Once a call has returned a slot to a thread, every later call of that
    thread in the registry it left returns the same slot by the fast
    path: no [test_and_set], no change, whatever the fuel and the
    allocator. *)
Theorem get_again_same_slot (malloc malloc' : Z -> Z) (sz sz' : Z)
    (fuel fuel' : nat) (t : nat) (w w' : World) (p : Z) :
  fst (GetCurrentThreadState malloc sz fuel t w) = Returned p w' ->
  GetCurrentThreadState malloc' sz' fuel' t w' = (Returned p w', []).
Proof.
  intros H.
  assert (Hp : p <> nullptr /\ pthread_getspecific t w' = p).
  { revert H. destruct fuel as [| fuel].
    - rewrite get_no_fuel. repeat case_decide; simpl; try discriminate.
      by intros [= <- <-].
    - rewrite get_cases. repeat case_decide; simpl; try discriminate.
      + by intros [= <- <-].
      + destruct (objects w !! thread_state_head_p w) as [s |];
          [| discriminate].
        destruct (owned s); simpl; [discriminate |].
        intros [= <- <-]. split; [assumption | apply getspecific_claimed]. }
  destruct Hp as [Hp Hb]. unfold GetCurrentThreadState.
  rewrite Hb. by rewrite decide_True.
Qed.

Lemma get_again_same_slot_witness :
  exists w',
    fst (GetCurrentThreadState (fun _ => 0) 24 1 7
           (with_objects (<[64 := mkThreadState 0 false 128 0]>
                            (objects two_slots)) two_slots))
      = Returned 64 w' /\
    GetCurrentThreadState (fun _ => 4096) 32 0 7 w' = (Returned 64 w', []).
Proof.
  eexists. split; [reflexivity |].
  exact (get_again_same_slot (fun _ => 0) (fun _ => 4096) 24 32 1 0 7
           (with_objects (<[64 := mkThreadState 0 false 128 0]>
                            (objects two_slots)) two_slots)
           _ 64 eq_refl).
Defined.

(** *** GetCurrentThreadState: what it leaves alone *)

(** X8. Whatever way a call ends, it changes neither the static data (head of
    the list, next id, inited, key) nor the binding of any other thread
    nor any object but the head of the list, it adds and removes no
    object, it keeps the [id], [next_p] and [gc_p] of every object, and
    the list met along [next_p] from any address is the same. *)
Theorem get_frame (malloc : Z -> Z) (sz : Z) (fuel : nat) (t : nat)
    (w w' : World) :
  world_of (fst (GetCurrentThreadState malloc sz fuel t w)) = Some w' ->
  thread_state_head_p w' = thread_state_head_p w /\
  next_id w' = next_id w /\
  inited w' = inited w /\
  thread_state_key w' = thread_state_key w /\
  (forall t', t' <> t ->
     pthread_getspecific t' w' = pthread_getspecific t' w) /\
  (forall q, q <> thread_state_head_p w ->
     objects w' !! q = objects w !! q) /\
  (forall q, (fun s => (id s, next_p s, gc_p s)) <$> objects w' !! q
             = (fun s => (id s, next_p s, gc_p s)) <$> objects w !! q) /\
  (forall n q, slot_list n q (objects w') = slot_list n q (objects w)).
Proof.
  intros H. apply get_world_cases in H as [-> | (s & Hb & Hh & Hs & Ho & ->)];
    [done |].
  assert (Hnext : forall q,
    (fun s => (id s, next_p s, gc_p s)) <$>
      objects (claimed t (thread_state_head_p w) s w) !! q
    = (fun s => (id s, next_p s, gc_p s)) <$> objects w !! q).
  { intros q. unfold claimed. simpl.
    destruct (decide (q = thread_state_head_p w)) as [-> | Hq].
    - by rewrite lookup_insert_eq, Hs.
    - by rewrite lookup_insert_ne. }
  repeat split; try done.
  - intros t' Ht'. by apply getspecific_claimed_other.
  - intros q Hq. unfold claimed. simpl. by rewrite lookup_insert_ne.
  - apply slot_list_ext. intros q. specialize (Hnext q).
    destruct (objects (claimed t (thread_state_head_p w) s w) !! q),
             (objects w !! q); simpl in *; congruence.
Qed.

Lemma get_frame_witness :
  exists w',
    world_of (fst (GetCurrentThreadState (fun _ => 0) 24 1 7
           (with_objects (<[64 := mkThreadState 0 false 128 0]>
                            (objects two_slots)) two_slots))) = Some w' /\
    thread_state_head_p w' = 64 /\
    (forall n q, slot_list n q (objects w') =
                 slot_list n q (<[64 := mkThreadState 0 false 128 0]>
                                  (objects two_slots))).
Proof.
  eexists. split; [reflexivity |].
  pose proof (get_frame (fun _ => 0) 24 1 7
                (with_objects (<[64 := mkThreadState 0 false 128 0]>
                                 (objects two_slots)) two_slots)
                _ eq_refl) as H.
  split; [exact (proj1 H) |].
  exact (proj2 (proj2 (proj2 (proj2 (proj2 (proj2 (proj2 H))))))).
Defined.

(** X9. Every [test_and_set] of a call is on the head of the list; there are
    at most as many as the fuel allows; a call that ends (returns,
    reaches the closing brace or faults) executed at most one; and a
    call that hands a slot to a thread that had no binding executed
    exactly one, on the head. *)
Theorem get_tests_only_head (malloc : Z -> Z) (sz : Z) (fuel : nat)
    (t : nat) (w : World) :
  Forall (fun q => q = thread_state_head_p w)
         (snd (GetCurrentThreadState malloc sz fuel t w)) /\
  (length (snd (GetCurrentThreadState malloc sz fuel t w)) <= fuel)%nat /\
  ((forall w', fst (GetCurrentThreadState malloc sz fuel t w) <> Spinning w') ->
   (length (snd (GetCurrentThreadState malloc sz fuel t w)) <= 1)%nat) /\
  (forall p w',
     pthread_getspecific t w = nullptr ->
     fst (GetCurrentThreadState malloc sz fuel t w) = Returned p w' ->
     snd (GetCurrentThreadState malloc sz fuel t w) = [thread_state_head_p w]).
Proof.
  assert (Hone : forall p w',
    pthread_getspecific t w = nullptr ->
    fst (GetCurrentThreadState malloc sz fuel t w) = Returned p w' ->
    snd (GetCurrentThreadState malloc sz fuel t w) = [thread_state_head_p w]).
  { intros p w' Hb. destruct fuel as [| fuel];
      [rewrite get_no_fuel | rewrite get_cases];
      rewrite Hb; rewrite decide_False by (intros H; by apply H).
    - case_decide; discriminate.
    - destruct (decide (thread_state_head_p w = nullptr)); [discriminate |].
      destruct (objects w !! thread_state_head_p w) as [s |];
        [| discriminate].
      destruct (owned s); [discriminate | reflexivity]. }
  cut (Forall (fun q => q = thread_state_head_p w)
         (snd (GetCurrentThreadState malloc sz fuel t w)) /\
       (length (snd (GetCurrentThreadState malloc sz fuel t w)) <= fuel)%nat /\
       ((forall w', fst (GetCurrentThreadState malloc sz fuel t w)
                    <> Spinning w') ->
        (length (snd (GetCurrentThreadState malloc sz fuel t w)) <= 1)%nat)).
  { intros (A & B & C). repeat split; assumption. }
  clear Hone. destruct fuel as [| fuel].
  - rewrite get_no_fuel. repeat case_decide; simpl; repeat split; auto.
  - rewrite get_cases. repeat case_decide; simpl;
      try (repeat split; auto with lia; fail).
    destruct (objects w !! thread_state_head_p w) as [s |];
      [| simpl; repeat split; auto with lia].
    destruct (owned s); cbn [fst snd].
    + split; [constructor; [| apply Forall_replicate]; reflexivity |].
      split; [simpl; rewrite length_replicate; lia |].
      intros Hns. by destruct (Hns w).
    + split; [by repeat constructor |]. simpl. split; lia.
Qed.

Lemma get_tests_only_head_witness :
  exists w',
    (forall w'', fst (GetCurrentThreadState (fun _ => 0) 24 5 7 free_head)
                 <> Spinning w'') /\
    pthread_getspecific 7 free_head = nullptr /\
    fst (GetCurrentThreadState (fun _ => 0) 24 5 7 free_head)
      = Returned 64 w' /\
    snd (GetCurrentThreadState (fun _ => 0) 24 5 7 free_head)
      = [thread_state_head_p free_head] /\
    Forall (fun q => q = thread_state_head_p free_head)
           (snd (GetCurrentThreadState (fun _ => 0) 24 5 7 free_head)) /\
    (length (snd (GetCurrentThreadState (fun _ => 0%Z) 24 5 7 free_head))
       <= 1)%nat.
Proof.
  assert (H : forall w'',
    fst (GetCurrentThreadState (fun _ => 0) 24 5 7 free_head) <> Spinning w'')
    by (intros w''; vm_compute; discriminate).
  pose proof (get_tests_only_head (fun _ => 0) 24 5 7 free_head)
    as (Ha & _ & Hc & Hd).
  eexists. split; [exact H |]. split; [reflexivity |].
  split; [reflexivity |].
  split; [exact (Hd 64 _ eq_refl eq_refl) |].
  split; [exact Ha | exact (Hc H)].
Defined.

(** *** GetCurrentThreadState: how it ends *)

(** X10. With fuel for at least one iteration, a call is still in its loop when
    the fuel runs out exactly when the thread has no binding and the head
    of the list is an owned object; the registry is then unchanged and
    every iteration ran [test_and_set] on the head. *)
Theorem get_spins_iff (malloc : Z -> Z) (sz : Z) (fuel : nat) (t : nat)
    (w : World) :
  ((exists w', fst (GetCurrentThreadState malloc sz (S fuel) t w)
               = Spinning w') <->
   pthread_getspecific t w = nullptr /\
   thread_state_head_p w <> nullptr /\
   is_owned (thread_state_head_p w) w) /\
  (forall w', fst (GetCurrentThreadState malloc sz (S fuel) t w)
              = Spinning w' ->
     GetCurrentThreadState malloc sz (S fuel) t w =
       (Spinning w, replicate (S fuel) (thread_state_head_p w))).
Proof.
  rewrite get_cases.
  destruct (decide (pthread_getspecific t w <> nullptr)) as [Hb | Hb].
  { split; [split |]; [intros [w' [=]] | intros [Hn _]; by destruct Hb
                       | intros w' [=]]. }
  apply not_not_null in Hb.
  destruct (decide (thread_state_head_p w = nullptr)) as [Hh | Hh].
  { split; [split |]; [intros [w' [=]] | intros (_ & Hn & _); by destruct Hn
                       | intros w' [=]]. }
  destruct (objects w !! thread_state_head_p w) as [s |] eqn:Hs.
  - destruct (owned s) eqn:Ho; simpl.
    + split; [split |]; [| by exists w | done].
      intros _. split; [assumption |]. split; [assumption |]. by exists s.
    + split; [split |]; [intros [w' [=]] | | intros w' [=]].
      intros (_ & _ & s' & Hs' & Ho'). congruence.
  - split; [split |]; [intros [w' [=]] | | intros w' [=]].
    intros (_ & _ & s' & Hs' & _). congruence.
Qed.

Lemma get_spins_iff_witness :
  (pthread_getspecific 7 two_slots = nullptr /\
   thread_state_head_p two_slots <> nullptr /\
   is_owned (thread_state_head_p two_slots) two_slots) /\
  exists w', fst (GetCurrentThreadState (fun _ => 0) 24 3 7 two_slots)
             = Spinning w'.
Proof.
  assert (H : pthread_getspecific 7 two_slots = nullptr /\
              thread_state_head_p two_slots <> nullptr /\
              is_owned (thread_state_head_p two_slots) two_slots).
  { split; [reflexivity |]. split; [discriminate |].
    exists (mkThreadState 0 true 128 0). split; reflexivity. }
  split; [exact H |].
  exact (proj2 (proj1 (get_spins_iff (fun _ => 0) 24 2 7 two_slots)) H).
Defined.

(** X11. A call that does not end in its loop with some fuel gives the same
    result, the same registry and the same [test_and_set]s with any
    other fuel: one iteration decides it. *)
Theorem get_fuel_irrelevant (malloc : Z -> Z) (sz : Z) (n m : nat)
    (t : nat) (w : World) :
  (forall w', fst (GetCurrentThreadState malloc sz (S n) t w)
              <> Spinning w') ->
  GetCurrentThreadState malloc sz (S m) t w =
  GetCurrentThreadState malloc sz (S n) t w.
Proof.
  rewrite !get_cases. repeat case_decide; try reflexivity.
  destruct (objects w !! thread_state_head_p w) as [s |]; [| reflexivity].
  destruct (owned s); [| reflexivity].
  intros Hns. by destruct (Hns w).
Qed.

Lemma get_fuel_irrelevant_witness :
  (forall w', fst (GetCurrentThreadState (fun _ => 0) 24 1 7 free_head)
              <> Spinning w') /\
  snd (GetCurrentThreadState (fun _ => 0) 24 1 7 free_head) = [64] /\
  GetCurrentThreadState (fun _ => 0) 24 9 7 free_head =
  GetCurrentThreadState (fun _ => 0) 24 1 7 free_head.
Proof.
  assert (H : forall w',
    fst (GetCurrentThreadState (fun _ => 0) 24 1 7 free_head) <> Spinning w')
    by (intros w'; vm_compute; discriminate).
  split; [exact H |]. split; [reflexivity |].
  exact (get_fuel_irrelevant (fun _ => 0) 24 0 8 7 free_head H).
Defined.

(** X12. A call dereferences an address that holds no object exactly when the
    thread has no binding and the head of the list is a non-null address
    at which there is no object. *)
Theorem get_faults_iff (malloc : Z -> Z) (sz : Z) (fuel : nat) (t : nat)
    (w : World) :
  fst (GetCurrentThreadState malloc sz (S fuel) t w) = Fault <->
  pthread_getspecific t w = nullptr /\
  thread_state_head_p w <> nullptr /\
  objects w !! thread_state_head_p w = None.
Proof.
  rewrite get_cases.
  destruct (decide (pthread_getspecific t w <> nullptr)) as [Hb | Hb].
  { split; [intros [=] | intros [Hn _]; by destruct Hb]. }
  apply not_not_null in Hb.
  destruct (decide (thread_state_head_p w = nullptr)) as [Hh | Hh].
  { split; [intros [=] | intros (_ & Hn & _); by destruct Hn]. }
  destruct (objects w !! thread_state_head_p w) as [s |] eqn:Hs.
  - destruct (owned s); simpl; (split; [intros [=] | intros (_ & _ & [=])]).
  - simpl. split; [done | reflexivity].
Qed.

Lemma get_faults_iff_witness :
  let w := mkWorld ∅ 0 64 true 1 ∅ in
  (pthread_getspecific 0 w = nullptr /\
   thread_state_head_p w <> nullptr /\
   objects w !! thread_state_head_p w = None) /\
  fst (GetCurrentThreadState (fun _ => 0) 24 1 0 w) = Fault.
Proof.
  intros w.
  assert (H : pthread_getspecific 0 w = nullptr /\
              thread_state_head_p w <> nullptr /\
              objects w !! thread_state_head_p w = None).
  { split; [reflexivity |]. split; [discriminate | reflexivity]. }
  split; [exact H |].
  exact (proj2 (get_faults_iff (fun _ => 0) 24 0 0 w) H).
Defined.

(** X13. The allocation macro is reached exactly when the thread has no
    binding and the list is empty. The call then reaches its closing
    brace with the macro's result in its local pointer, having run no
    [test_and_set] and changed nothing, whatever [malloc] answered. *)
Theorem get_allocates_iff (malloc : Z -> Z) (sz : Z) (fuel : nat) (t : nat)
    (w : World) :
  ((exists a w', fst (GetCurrentThreadState malloc sz fuel t w)
                 = FellOffEnd a w') <->
   pthread_getspecific t w = nullptr /\ thread_state_head_p w = nullptr) /\
  (pthread_getspecific t w = nullptr -> thread_state_head_p w = nullptr ->
   GetCurrentThreadState malloc sz fuel t w =
     (FellOffEnd (Alloc.CACHE_ALIGNED_ALLOC malloc sz) w, [])).
Proof.
  split.
  - destruct fuel as [| fuel]; [rewrite get_no_fuel | rewrite get_cases].
    + destruct (decide (pthread_getspecific t w <> nullptr)) as [Hb | Hb].
      { split; [intros (a & w' & [=]) | intros [Hn _]; by destruct Hb]. }
      apply not_not_null in Hb.
      destruct (decide (thread_state_head_p w = nullptr)) as [Hh | Hh].
      { split; [by intros _ | intros _; by eexists _, _]. }
      split; [intros (a & w' & [=]) | intros [_ Hn]; by destruct Hh].
    + destruct (decide (pthread_getspecific t w <> nullptr)) as [Hb | Hb].
      { split; [intros (a & w' & [=]) | intros [Hn _]; by destruct Hb]. }
      apply not_not_null in Hb.
      destruct (decide (thread_state_head_p w = nullptr)) as [Hh | Hh].
      { split; [by intros _ | intros _; by eexists _, _]. }
      destruct (objects w !! thread_state_head_p w) as [s |];
        [destruct (owned s) |]; simpl;
        (split; [intros (a & w' & [=]) | intros [_ Hn]; by destruct Hh]).
  - intros Hb Hh. unfold GetCurrentThreadState. rewrite Hb, Hh.
    rewrite decide_False by (intros H; by apply H).
    apply claim_loop_null.
Qed.

Lemma get_allocates_iff_witness :
  (pthread_getspecific 3 initialised = nullptr /\
   thread_state_head_p initialised = nullptr) /\
  (exists a w', fst (GetCurrentThreadState (fun _ => 0) 24 5 3 initialised)
                = FellOffEnd a w') /\
  GetCurrentThreadState (fun _ => 0) 24 5 3 initialised =
    (FellOffEnd (Alloc.CACHE_ALIGNED_ALLOC (fun _ => 0) 24) initialised, []).
Proof.
  assert (H : pthread_getspecific 3 initialised = nullptr /\
              thread_state_head_p initialised = nullptr)
    by (split; reflexivity).
  split; [exact H |]. split.
  - exact (proj2 (proj1 (get_allocates_iff (fun _ => 0) 24 5 3 initialised)) H).
  - exact (proj2 (get_allocates_iff (fun _ => 0) 24 5 3 initialised)
             (proj1 H) (proj2 H)).
Defined.

(** *** GetCurrentThreadState: the invariant of the bindings *)

(** X14. A call of any thread, however it ends, keeps the bindings well formed:
    if before it every bound thread was bound to an owned object and no
    two threads shared an object, the same holds after it. *)
Theorem get_keeps_well_bound (malloc : Z -> Z) (sz : Z) (fuel : nat)
    (t : nat) (w w' : World) :
  well_bound w ->
  world_of (fst (GetCurrentThreadState malloc sz fuel t w)) = Some w' ->
  well_bound w'.
Proof.
  intros [Hown Hinj] H.
  apply get_world_cases in H as [-> | (s & Hb & Hh & Hs & Ho & ->)];
    [by split |].
  assert (Hfree : forall t', pthread_getspecific t' w <> thread_state_head_p w).
  { intros t' Heq.
    destruct (Hown t') as (s' & Hs' & Ho'); [by rewrite Heq |].
    rewrite Heq in Hs'. congruence. }
  split.
  - intros t' Hnn. destruct (decide (t' = t)) as [-> | Hne].
    + rewrite getspecific_claimed. apply is_owned_claimed.
    + rewrite getspecific_claimed_other in * by assumption.
      apply is_owned_claimed_other. by apply Hown.
  - intros t1 t2 Hnn Heq.
    destruct (decide (t1 = t)) as [-> | H1], (decide (t2 = t)) as [-> | H2];
      [reflexivity | | |].
    + rewrite getspecific_claimed, getspecific_claimed_other in Heq
        by assumption.
      by destruct (Hfree t2).
    + rewrite getspecific_claimed, getspecific_claimed_other in Heq
        by assumption.
      by destruct (Hfree t1).
    + rewrite !getspecific_claimed_other in * by assumption.
      by apply Hinj.
Qed.

Lemma well_bound_free_head : well_bound free_head.
Proof.
  assert (Hget : forall t, pthread_getspecific t free_head <> nullptr ->
                           t = 2%nat /\ pthread_getspecific t free_head = 128).
  { intros t. unfold pthread_getspecific, free_head. simpl.
    destruct (decide (t = 2%nat)) as [-> | Hne]; [done |].
    rewrite lookup_insert_ne by done. rewrite lookup_empty. by intros []. }
  split.
  - intros t Hnn. destruct (Hget t Hnn) as [-> ->].
    exists (mkThreadState 1 true 0 0). split; reflexivity.
  - intros t1 t2 Hnn Heq.
    destruct (Hget t1 Hnn) as [-> _].
    rewrite Heq in Hnn. by destruct (Hget t2 Hnn) as [-> _].
Qed.

Lemma get_keeps_well_bound_witness :
  well_bound free_head /\
  exists w',
    world_of (fst (GetCurrentThreadState (fun _ => 0) 24 1 7 free_head))
      = Some w' /\
    pthread_getspecific 7 w' = 64 /\
    well_bound w'.
Proof.
  split; [exact well_bound_free_head |]. eexists.
  split; [reflexivity |]. split; [reflexivity |].
  exact (get_keeps_well_bound (fun _ => 0) 24 1 7 free_head _
           well_bound_free_head eq_refl).
Defined.

(** *** ClearOwnedFlag and its composition with claims *)

Lemma clear_some (p : Z) (w w' : World) :
  ClearOwnedFlag p w = Some w' ->
  exists s, objects w !! p = Some s /\
            w' = with_objects (<[p := set_owned false s]> (objects w)) w.
Proof.
  unfold ClearOwnedFlag, clear.
  destruct (objects w !! p) as [s |]; [| discriminate].
  intros [= <-]. by exists s.
Qed.

(** X15. Releasing a slot twice is releasing it once, and two releases give
    the same registry in either order. *)
Theorem clear_owned_flag_idempotent_commutes (p q : Z) (w wp wq : World) :
  ClearOwnedFlag p w = Some wp ->
  ClearOwnedFlag q w = Some wq ->
  ClearOwnedFlag p wp = Some wp /\
  exists w2, ClearOwnedFlag q wp = Some w2 /\ ClearOwnedFlag p wq = Some w2.
Proof.
  intros Hp Hq.
  apply clear_some in Hp as (sp & Hsp & ->).
  apply clear_some in Hq as (sq & Hsq & ->).
  assert (Hidem : forall r sr,
    objects w !! r = Some sr ->
    ClearOwnedFlag r (with_objects (<[r := set_owned false sr]> (objects w)) w)
    = Some (with_objects (<[r := set_owned false sr]> (objects w)) w)).
  { intros r sr Hr. unfold ClearOwnedFlag, clear. simpl.
    rewrite lookup_insert_eq. unfold with_objects. simpl.
    by rewrite insert_insert_eq. }
  split; [by apply Hidem |].
  destruct (decide (p = q)) as [-> | Hne].
  - assert (sp = sq) as -> by congruence.
    eexists. split; by apply Hidem.
  - eexists. unfold ClearOwnedFlag, clear. simpl.
    rewrite !lookup_insert_ne by done. rewrite Hsp, Hsq.
    unfold with_objects. simpl. split; [reflexivity |].
    by rewrite insert_insert_ne.
Qed.

Lemma clear_owned_flag_idempotent_commutes_witness :
  exists wp wq,
    ClearOwnedFlag 64 two_slots = Some wp /\
    ClearOwnedFlag 128 two_slots = Some wq /\
    ClearOwnedFlag 64 wp = Some wp /\
    exists w2, ClearOwnedFlag 128 wp = Some w2 /\
               ClearOwnedFlag 64 wq = Some w2.
Proof.
  eexists _, _. split; [reflexivity |]. split; [reflexivity |].
  eapply (clear_owned_flag_idempotent_commutes 64 128 two_slots);
    reflexivity.
Defined.

(** X16. A released head is recycled: after [ClearOwnedFlag] on the head of
    the list, the call of a thread that has no binding returns the head
    after a single [test_and_set], binds it to the thread and leaves it
    owned. *)
Theorem released_head_is_recycled (malloc : Z -> Z) (sz : Z) (fuel : nat)
    (t : nat) (w w1 : World) :
  thread_state_head_p w <> nullptr ->
  pthread_getspecific t w = nullptr ->
  ClearOwnedFlag (thread_state_head_p w) w = Some w1 ->
  exists w2,
    GetCurrentThreadState malloc sz (S fuel) t w1 =
      (Returned (thread_state_head_p w) w2, [thread_state_head_p w]) /\
    pthread_getspecific t w2 = thread_state_head_p w /\
    is_owned (thread_state_head_p w) w2.
Proof.
  intros Hh Hb Hc. apply clear_some in Hc as (s & Hs & ->).
  rewrite get_cases. simpl.
  change (pthread_getspecific t (with_objects _ w))
    with (pthread_getspecific t w).
  rewrite Hb. rewrite decide_False by (intros H; by apply H).
  rewrite decide_False by assumption.
  rewrite lookup_insert_eq. simpl.
  eexists. split; [reflexivity |].
  split; [apply getspecific_claimed | apply is_owned_claimed].
Qed.

Lemma released_head_is_recycled_witness :
  thread_state_head_p two_slots <> nullptr /\
  pthread_getspecific 7 two_slots = nullptr /\
  exists w1 w2,
    ClearOwnedFlag (thread_state_head_p two_slots) two_slots = Some w1 /\
    GetCurrentThreadState (fun _ => 0) 24 1 7 w1 = (Returned 64 w2, [64]) /\
    pthread_getspecific 7 w2 = 64 /\
    is_owned 64 w2.
Proof.
  assert (Hh : thread_state_head_p two_slots <> nullptr) by discriminate.
  split; [exact Hh |]. split; [reflexivity |].
  eexists. 
  destruct (released_head_is_recycled (fun _ => 0) 24 0 7 two_slots _
              Hh eq_refl eq_refl) as (w2 & H).
  exists w2. split; [reflexivity | exact H].
Defined.

(** X17. Claiming and releasing undo each other on the objects: when a thread
    with no binding got a slot from [GetCurrentThreadState],
    [ClearOwnedFlag] on that slot gives back the objects as they were
    before the call. The binding of the thread is not reset by it. *)
Theorem claim_then_release_restores (malloc : Z -> Z) (sz : Z) (fuel : nat)
    (t : nat) (w w1 : World) (p : Z) :
  pthread_getspecific t w = nullptr ->
  fst (GetCurrentThreadState malloc sz fuel t w) = Returned p w1 ->
  exists w2,
    ClearOwnedFlag p w1 = Some w2 /\
    objects w2 = objects w /\
    pthread_getspecific t w2 = p.
Proof.
  intros Hb. destruct fuel as [| fuel];
    [rewrite get_no_fuel | rewrite get_cases];
    rewrite Hb; rewrite decide_False by (intros H; by apply H).
  - case_decide; discriminate.
  - destruct (decide (thread_state_head_p w = nullptr)); [discriminate |].
    destruct (objects w !! thread_state_head_p w) as [s |] eqn:Hs;
      [| discriminate].
    destruct (owned s) eqn:Ho; simpl; [discriminate |].
    intros [= <- <-]. unfold ClearOwnedFlag, clear, claimed. simpl.
    rewrite lookup_insert_eq. eexists. split; [reflexivity |]. simpl.
    split.
    + rewrite insert_insert_eq. apply insert_id. rewrite Hs. f_equal.
      rewrite <- Ho. destruct s; reflexivity.
    + unfold pthread_getspecific. simpl. by rewrite lookup_insert_eq.
Qed.

Lemma claim_then_release_restores_witness :
  let w := with_objects (<[64 := mkThreadState 0 false 128 0]>
                           (objects two_slots)) two_slots in
  pthread_getspecific 7 w = nullptr /\
  exists w1 w2,
    fst (GetCurrentThreadState (fun _ => 0) 24 1 7 w) = Returned 64 w1 /\
    ClearOwnedFlag 64 w1 = Some w2 /\
    objects w2 = objects w /\
    pthread_getspecific 7 w2 = 64.
Proof.
  intros w. split; [reflexivity |]. eexists.
  destruct (claim_then_release_restores (fun _ => 0) 24 1 7 w _ 64
              eq_refl eq_refl) as (w2 & H).
  exists w2. split; [reflexivity | exact H].
Defined.

(** *** Init *)

(** X18. [Init] hands control back only when it was called with [inited]
    clear and [pthread_key_create] returned 0 (it never reaches a state in
    which it would spin, fault or return nothing). It then changed no
    object, stored the created key, under which no thread has a binding,
    and left an empty list: nothing is met from the new head, whatever
    objects there were. *)
Theorem init_returns_only_fresh (key_create : Z * Z) (w w' : World) :
  world_of (Init key_create w) = Some w' ->
  Init key_create w = Returned tt w' /\
  inited w = false /\ fst key_create = 0 /\
  objects w' = objects w /\
  (forall t, pthread_getspecific t w' = nullptr) /\
  thread_state_key w' = snd key_create /\
  forall n, slot_list n (thread_state_head_p w') (objects w') = [].
Proof.
  unfold Init. destruct (inited w); [discriminate |].
  destruct (decide (fst key_create = 0)) as [Hk | Hk]; [| discriminate].
  simpl. intros [= <-]. simpl. repeat split; try done.
  intros [| n]; reflexivity.
Qed.

Lemma init_returns_only_fresh_witness :
  exists w',
    world_of (Init (0, 5) (mkWorld (objects two_slots) 2 64 false 0 ∅))
      = Some w' /\
    Init (0, 5) (mkWorld (objects two_slots) 2 64 false 0 ∅)
      = Returned tt w' /\
    objects w' = objects two_slots /\
    pthread_getspecific 2 w' = nullptr /\
    thread_state_key w' = 5 /\
    slot_list 3 (thread_state_head_p w') (objects w') = [].
Proof.
  eexists. split; [reflexivity |].
  pose proof (init_returns_only_fresh (0, 5)
                (mkWorld (objects two_slots) 2 64 false 0 ∅) _ eq_refl)
    as (H1 & _ & _ & H4 & H5 & H6 & H7).
  split; [exact H1 |]. split; [exact H4 |]. split; [exact (H5 2%nat) |].
  split; [exact H6 | exact (H7 3%nat)].
Defined.

(** *** Interleavings *)

Lemma same_shape_refl (w : World) : same_shape w w.
Proof. by repeat split. Qed.

Lemma same_shape_trans (w1 w2 w3 : World) :
  same_shape w1 w2 -> same_shape w2 w3 -> same_shape w1 w3.
Proof.
  intros (A1 & A2 & A3 & A4 & A5) (B1 & B2 & B3 & B4 & B5).
  split; [congruence |]. split; [congruence |]. split; [congruence |].
  split; [congruence |]. intros q. by rewrite B5, A5.
Qed.

Lemma same_shape_set_owned (b : bool) (p : Z) (s : ThreadState) (w : World) :
  objects w !! p = Some s ->
  same_shape w (with_objects (<[p := set_owned b s]> (objects w)) w).
Proof.
  intros Hs. repeat split. intros q. simpl.
  destruct (decide (q = p)) as [-> | Hq].
  - by rewrite lookup_insert_eq, Hs.
  - by rewrite lookup_insert_ne.
Qed.

Lemma do_action_shape (a : action) (w w' : World) :
  do_action a w = Some w' ->
  same_shape w w' /\
  forall t, claims_of t a = false ->
            pthread_getspecific t w' = pthread_getspecific t w.
Proof.
  destruct a as [t p | p]; simpl.
  - unfold claim_body, test_and_set.
    destruct (objects w !! p) as [s |] eqn:Hs; [| discriminate].
    simpl. destruct (owned s); simpl; intros [= <-].
    + split; [by apply same_shape_set_owned | done].
    + split.
      * by apply (same_shape_set_owned true p s w).
      * intros t' Ht'. apply bool_decide_eq_false in Ht'.
        unfold pthread_getspecific, pthread_setspecific. simpl.
        by rewrite lookup_insert_ne.
  - intros Hc. apply clear_some in Hc as (s & Hs & ->).
    split; [by apply same_shape_set_owned | done].
Qed.

Lemma same_shape_dom (w w' : World) :
  same_shape w w' -> dom (objects w') = dom (objects w).
Proof.
  intros (_ & _ & _ & _ & H). apply set_eq. intros q.
  rewrite !elem_of_dom. specialize (H q).
  destruct (objects w' !! q), (objects w !! q); simpl in H;
    try discriminate; split; intros [? ?]; eauto; discriminate.
Qed.

Lemma same_shape_slot_list (w w' : World) :
  same_shape w w' ->
  forall n q, slot_list n q (objects w') = slot_list n q (objects w).
Proof.
  intros (_ & _ & _ & _ & H). apply slot_list_ext. intros q.
  specialize (H q).
  destruct (objects w' !! q), (objects w !! q); simpl in *;
    unfold fixed_part in H; congruence.
Qed.

(** X19. However claims and releases of any threads interleave, no slot is
    ever added to or removed from the registry or unlinked from the
    list, the [id], [next_p] and [gc_p] of every slot and the static data
    stay as they were, and a thread that made no claim keeps its
    binding. *)
Theorem run_keeps_registry_shape (l : list action) (w w' : World) :
  run l w = Some w' ->
  same_shape w w' /\
  dom (objects w') = dom (objects w) /\
  (forall n q, slot_list n q (objects w') = slot_list n q (objects w)) /\
  (forall t, forallb (fun a => negb (claims_of t a)) l = true ->
             pthread_getspecific t w' = pthread_getspecific t w).
Proof.
  intros Hrun.
  assert (H : same_shape w w' /\
              forall t, forallb (fun a => negb (claims_of t a)) l = true ->
                        pthread_getspecific t w' = pthread_getspecific t w).
  { revert w Hrun. induction l as [| a l IH]; simpl; intros w Hrun.
    - injection Hrun as <-. split; [apply same_shape_refl | done].
    - destruct (do_action a w) as [w1 |] eqn:Hstep; [| discriminate].
      destruct (do_action_shape a w w1 Hstep) as [Hs1 Hb1].
      destruct (IH w1 Hrun) as [Hs2 Hb2].
      split; [by eapply same_shape_trans |].
      intros t Ht. apply andb_true_iff in Ht as [Ha Hl].
      apply negb_true_iff in Ha. by rewrite Hb2, Hb1. }
  destruct H as [Hs Hb].
  split; [assumption |]. split; [by apply same_shape_dom |].
  split; [by apply same_shape_slot_list | assumption].
Qed.

Lemma run_keeps_registry_shape_witness :
  let l := [Claim 7 128; Release 64; Claim 9 64; Release 128] in
  exists w',
    run l two_slots = Some w' /\
    dom (objects w') = dom (objects two_slots) /\
    slot_list 3 (thread_state_head_p w') (objects w') = [64; 128] /\
    (forallb (fun a => negb (claims_of 2 a)) l = true /\
     pthread_getspecific 2 w' = 64).
Proof.
  intros l. eexists. split; [reflexivity |].
  pose proof (run_keeps_registry_shape l two_slots _ eq_refl)
    as ((Hh & _) & Hd & Hl & Hb).
  split; [exact Hd |]. split.
  - rewrite Hh. exact (Hl 3%nat (thread_state_head_p two_slots)).
  - split; [reflexivity |]. exact (Hb 2%nat eq_refl).
Defined.

End RegistryMore.
